(** * The Describer: a shallow embedding of [app.py] and its specification

    The program is a single Streamlit script.  Every user interaction re-runs
    the script from top to bottom against the session's state; the script
    talks to three things outside itself: the Pillow image library, the
    credential sources (Streamlit secrets, process environment) and the
    Anthropic messages endpoint.

    The embedding keeps that shape:
    - Python [str] values are sequences of Unicode code points;
    - the outside world is a record of read-only oracles;
    - a script run is a computation in a state-and-exception monad whose
      state holds [st.session_state], the widgets rendered so far and the
      requests sent so far. *)

From Stdlib Require Import ZArith NArith Lia Ascii String List DecimalString.
From stdpp Require Import base option list strings gmap.

Local Open Scope Z_scope.

(** ** Python strings *)

Module Py.

(** A [str] is a sequence of code points. *)
Definition char := N.
Definition str := list char.

(** Program text written as a Rocq string literal (ASCII only). *)
Definition lit (s : string) : str :=
  List.map N_of_ascii (list_ascii_of_string s).

(** [str.isspace] on one code point: the table of
    [_PyUnicode_IsWhitespace]. *)
Definition isspace (c : char) : bool :=
  ((9 <=? c) && (c <=? 13) ||
   (28 <=? c) && (c <=? 32) ||
   (c =? 133) || (c =? 160) || (c =? 5760) ||
   (8192 <=? c) && (c <=? 8202) ||
   (c =? 8232) || (c =? 8233) || (c =? 8239) || (c =? 8287) ||
   (c =? 12288))%N.

(** [str.split()] with no separator: skip runs of whitespace, collect the
    maximal runs of other characters.  [w] is the word being scanned. *)
Fixpoint split_go (w : str) (s : str) : list str :=
  match s with
  | [] => match w with [] => [] | _ => [w] end
  | c :: s' =>
      if isspace c
      then match w with [] => split_go [] s' | _ => w :: split_go [] s' end
      else split_go (w ++ [c]) s'
  end.

Definition split (s : str) : list str := split_go [] s.

(** [sep.join(ws)] *)
Fixpoint join (sep : str) (ws : list str) : str :=
  match ws with
  | [] => []
  | w :: ws' => match ws' with [] => w | _ => w ++ sep ++ join sep ws' end
  end.

(** [l[:n]]: a negative bound counts from the end. *)
Definition slice_to {A} (l : list A) (n : Z) : list A :=
  if 0 <=? n then take (Z.to_nat n) l
  else take (Z.to_nat (Z.of_nat (length l) + n)) l.

(** [len(l)] *)
Definition len {A} (l : list A) : Z := Z.of_nat (length l).

(** [str.strip()] with no argument. *)
Fixpoint lstrip (s : str) : str :=
  match s with
  | [] => []
  | c :: s' => if isspace c then lstrip s' else s
  end.

Definition rstrip (s : str) : str := rev (lstrip (rev s)).

Definition strip (s : str) : str := rstrip (lstrip s).

(** [str(n)] for an integer, as an f-string renders it. *)
Definition str_of_int (n : Z) : str := lit (NilZero.string_of_int (Z.to_int n)).

End Py.

Import Py.

(** ** Response post-processor ([app.py], lines 116-120) *)

Definition enforce_word_limit (text : str) (max_words : Z) : str :=
  let words := split text in
  if len words <=? max_words then text
  else join (lit " ") (slice_to words max_words) ++ lit "...".

(** The number of whitespace-delimited words of a text. *)
Definition word_count (text : str) : Z := len (split text).


(** A word as [split] produces them: not empty, free of whitespace. *)
Definition is_word (w : str) : Prop :=
  w <> [] /\ Forall (fun c => isspace c = false) w.

(** The words of a list, the last one extended by [t]. *)
Fixpoint append_last (t : str) (ws : list str) : list str :=
  match ws with
  | [] => []
  | w :: ws' => match ws' with [] => [w ++ t] | _ => w :: append_last t ws' end
  end.

(** ** Exceptions and outcomes *)

(** The exception classes the script can meet; each carries the text that
    [str(e)] renders. *)
Inductive exn :=
| UnidentifiedImageError (msg : str)
| RuntimeError (msg : str)
| AttributeError (msg : str)
| APIError (msg : str).

Definition exn_str (e : exn) : str :=
  match e with
  | UnidentifiedImageError m | RuntimeError m | AttributeError m | APIError m => m
  end.

Inductive outcome (A : Type) :=
| Return (a : A)
| Raise (e : exn).
Arguments Return {A} a.
Arguments Raise {A} e.

(** ** Images as Pillow presents them ([PIL.Image]) *)

Module PIL.

(** Pillow's image modes. *)
Inductive mode :=
| M_1 | M_L | M_P | M_RGB | M_RGBA | M_CMYK | M_YCbCr | M_LAB | M_HSV
| M_I | M_F | M_LA | M_PA | M_RGBX | M_RGBa | M_La | M_I16.

Definition mode_eqb (a b : mode) : bool :=
  match a, b with
  | M_1, M_1 | M_L, M_L | M_P, M_P | M_RGB, M_RGB | M_RGBA, M_RGBA
  | M_CMYK, M_CMYK | M_YCbCr, M_YCbCr | M_LAB, M_LAB | M_HSV, M_HSV
  | M_I, M_I | M_F, M_F | M_LA, M_LA | M_PA, M_PA | M_RGBX, M_RGBX
  | M_RGBa, M_RGBa | M_La, M_La | M_I16, M_I16 => true
  | _, _ => false
  end.

(** Does the mode carry an alpha band? *)
Definition has_alpha (m : mode) : bool :=
  match m with
  | M_RGBA | M_LA | M_PA | M_RGBa | M_La => true
  | _ => false
  end.

(** A pixel as it is seen: red, green, blue and opacity, each 0..255. *)
Record pixel := { red : Z; green : Z; blue : Z; alpha : Z }.

Definition opaque (p : pixel) : pixel :=
  {| red := red p; green := green p; blue := blue p; alpha := 255 |}.

(** An opened image: its mode, its size, and what its pixels look like
    (the colour and opacity Pillow assigns to each pixel of that mode).
    Band layout and palettes are not represented. *)
Record image := { im_mode : mode; im_size : Z * Z; im_pixels : list pixel }.

(** [img.convert(target)]: the image in the target mode.  A target with
    an alpha band keeps every pixel's opacity; a target without one
    drops the alpha band, so every pixel becomes opaque.  (Only the targets
    RGBA and RGB occur in the program; colour reduction for other targets
    is not represented.) *)
Definition convert (target : mode) (im : image) : image :=
  {| im_mode := target;
     im_size := im_size im;
     im_pixels := if has_alpha target then im_pixels im
                  else List.map opaque (im_pixels im) |}.

Inductive format := PNG | JPEG | GIF | WEBP.

(** A byte buffer, by what an image decoder makes of it: nothing, or an
    image held in some file format. *)
Inductive buffer :=
| NotAnImage (raw : list Byte.byte)
| Encoded (fmt : format) (im : image).

(** [Image.open(BytesIO(raw))] *)
Definition open (raw : buffer) : outcome image :=
  match raw with
  | NotAnImage _ => Raise (UnidentifiedImageError (lit "cannot identify image file"))
  | Encoded _ im => Return im
  end.

(** [img.save(buf, format=fmt); buf.getvalue()] *)
Definition save (im : image) (fmt : format) : buffer := Encoded fmt im.

End PIL.

(** ** Image normalizer ([app.py], lines 40-49) *)

Definition to_png_bytes (raw_bytes : PIL.buffer) : outcome PIL.buffer :=
  match PIL.open raw_bytes with
  | Raise e => Raise e
  | Return img =>
      let rgb :=
        if existsb (PIL.mode_eqb (PIL.im_mode img)) [PIL.M_P; PIL.M_LA]
        then PIL.convert PIL.M_RGBA img
        else PIL.convert PIL.M_RGB img in
      Return (PIL.save rgb PIL.PNG)
  end.

(** ** Credentials ([app.py], lines 15-35) *)

(** The Python values a secrets file or the environment can hold. *)
#[local] Set Warnings "-register-all".
Inductive pyval :=
| VNone
| VStr (s : str)
| VInt (n : Z)
| VBool (b : bool)
| VList (l : list pyval)
| VDict (d : list (string * pyval)).

(** Python truthiness, as [not api_key] tests it. *)
Definition truthy (v : pyval) : bool :=
  match v with
  | VNone => false
  | VStr s => match s with [] => false | _ => true end
  | VInt n => negb (n =? 0)
  | VBool b => b
  | VList l => match l with [] => false | _ => true end
  | VDict d => match d with [] => false | _ => true end
  end.

#[local] Set Warnings "register-all".

(** [anthropic.Anthropic(api_key=...)] *)
Record Anthropic := { api_key : pyval }.

(** A block of a response's [content]: its [type] and [text] attributes,
    where present. *)
Record block := { b_type : option str; b_text : option str }.

(** [base64.b64encode(b).decode("utf-8")]: the text that decodes to [b]. *)
Record base64 := b64encode { b64decode : PIL.buffer }.

Inductive content_part :=
| ImagePart (source_type media_type : str) (data : base64)
| TextPart (text : str).

Record message := { role : str; content : list content_part }.

Record request := {
  model : str;
  max_tokens : Z;
  system : str;
  messages : list message
}.

(** What lies outside the script.  Reading [st.secrets] raises when no
    secrets file exists; the service answers a request with a list of
    content blocks or with an exception. *)
Record world := {
  secrets : exn + gmap string pyval;
  environ : gmap string str;
  service : Anthropic -> request -> exn + list block
}.

Definition missing_key_message : str :=
  lit "Claude API key not found. Please set ANTHROPIC_API_KEY in Streamlit secrets or as an environment variable.".

Definition get_claude_client (w : world) : outcome Anthropic :=
  let api_key := VNone in
  (* 1) Try Streamlit secrets; any exception is swallowed *)
  let api_key :=
    match secrets w with
    | inl _ => api_key
    | inr sec =>
        match sec !! "ANTHROPIC_API_KEY"%string with
        | Some v => v
        | None => api_key
        end
    end in
  (* 2) Fallback to environment variable *)
  let api_key :=
    if negb (truthy api_key)
    then match environ w !! "ANTHROPIC_API_KEY"%string with
         | Some s => VStr s
         | None => VNone
         end
    else api_key in
  if negb (truthy api_key)
  then Raise (RuntimeError missing_key_message)
  else Return {| api_key := api_key |}.


(** ** The script's effects *)

(** What one run of the script builds up: the session state, the elements
    rendered on the page, and the requests that left for the service. *)

Inductive element :=
| st_image (file : PIL.buffer)
| st_warning (body : str)
| st_error (body : str)
| st_success (body : str)
| st_markdown (body : str)
| st_write (body : str)
| st_spinner (text : str)
| st_html (html : str).

Record page := {
  session_state : gmap string str;
  rendered : list element;
  sent : list request
}.

Definition M (A : Type) : Type := page -> outcome A * page.

Definition ret {A} (a : A) : M A := fun p => (Return a, p).

Definition bind {A B} (m : M A) (k : A -> M B) : M B :=
  fun p => match m p with
           | (Return a, p') => k a p'
           | (Raise e, p') => (Raise e, p')
           end.

Notation "'let!' x ':=' m 'in' k" := (bind m (fun x => k))
  (at level 10, x name, m at level 100, k at level 200).
Notation "m '>>' k" := (bind m (fun _ => k))
  (at level 100, k at level 200, right associativity).

(** An exception-raising or returning value computed without effects. *)
Definition lift {A} (o : outcome A) : M A := fun p => (o, p).

(** [try: body / except Exception as e: handler(e)] *)
Definition try_except {A} (body : M A) (handler : exn -> M A) : M A :=
  fun p => match body p with
           | (Return a, p') => (Return a, p')
           | (Raise e, p') => handler e p'
           end.

Definition when (b : bool) (m : M unit) : M unit := if b then m else ret tt.

Definition render (e : element) : M unit :=
  fun p => (Return tt, {| session_state := session_state p;
                          rendered := rendered p ++ [e];
                          sent := sent p |}).

(** [st.session_state.description] *)
Definition get_description : M str :=
  fun p => match session_state p !! "description"%string with
           | Some d => (Return d, p)
           | None => (Raise (AttributeError (lit "st.session_state has no attribute 'description'")), p)
           end.

(** [st.session_state.description = d] *)
Definition set_description (d : str) : M unit :=
  fun p => (Return tt, {| session_state := <["description"%string := d]> (session_state p);
                          rendered := rendered p;
                          sent := sent p |}).

(** [client.messages.create(...)]: the request leaves, the service answers. *)
Definition messages_create (w : world) (client : Anthropic) (req : request)
  : M (list block) :=
  fun p => (match service w client req with
            | inl e => Raise e
            | inr blocks => Return blocks
            end,
            {| session_state := session_state p;
               rendered := rendered p;
               sent := sent p ++ [req] |}).

(** ** Prompt builder and model client ([app.py], lines 54-113) *)

Definition nl : str := [10%N].

Definition user_prompt (max_words : Z) : str :=
  nl ++
  lit "You will see an image. Follow this approach strictly:" ++ nl ++
  nl ++
  lit "#Approach" ++ nl ++
  nl ++
  lit "1. Begin your answer with a line in this exact format: **Picture Type:** <short type, e.g. "
    ++ [34%N] ++ lit "Car picture" ++ [34%N] ++ lit ", "
    ++ [34%N] ++ lit "Baby picture" ++ [34%N] ++ lit ", "
    ++ [34%N] ++ lit "Food picture" ++ [34%N] ++ lit ">." ++ nl ++
  lit "2. After that, write a short 1" ++ [8211%N]
    ++ lit "2 sentence explanation of the overall picture." ++ nl ++
  lit "3. Then explain the picture in **Markdown format** using descriptive language." ++ nl ++
  lit "4. Keep the entire response under **" ++ str_of_int max_words
    ++ lit " words**, and never exceed **300 words** in any case. HARD LIMIT." ++ nl ++
  lit "5. Format the description so it is easily scannable (for example, bullets with bold labels, short lines)." ++ nl ++
  lit "6. Use **only** what is visible in the provided image. Do not invent or guess hidden details." ++ nl ++
  lit "7. Output **only** the description itself (starting with the " ++ [8220%N]
    ++ lit "Picture Type" ++ [8221%N]
    ++ lit " line). Do not repeat these instructions or add extra commentary." ++ nl.

Definition system_prompt : str :=
  lit "You are an assistant that writes short, structured, accessible image descriptions for people who cannot see the image. Always start with a 'Picture Type' line and respect the word limit.".

Definition describe_request (b64_image : base64) (user_prompt : str) : request :=
  {| model := lit "claude-3-haiku-20240307";
     max_tokens := 600;
     system := system_prompt;
     messages :=
       [ {| role := lit "user";
            content := [ ImagePart (lit "base64") (lit "image/png") b64_image;
                         TextPart user_prompt ] |} ] |}.

(** [[b.text for b in response.content if getattr(b, "type", None) == "text"]] *)
Fixpoint text_chunks (blocks : list block) : outcome (list str) :=
  match blocks with
  | [] => Return []
  | b :: rest =>
      if bool_decide (b_type b = Some (lit "text"))
      then match b_text b with
           | None => Raise (AttributeError (lit "object has no attribute 'text'"))
           | Some t => match text_chunks rest with
                       | Return ts => Return (t :: ts)
                       | Raise e => Raise e
                       end
           end
      else text_chunks rest
  end.

Definition describe_image_with_claude (w : world)
    (image_bytes : PIL.buffer) (max_words : Z) : M str :=
  (* Hard cap at 300 words regardless of slider *)
  let max_words := Z.min max_words 300 in
  let! png_bytes := lift (to_png_bytes image_bytes) in
  let b64_image := b64encode png_bytes in
  let! client := lift (get_claude_client w) in
  let user_prompt := user_prompt max_words in
  let! response := messages_create w client (describe_request b64_image user_prompt) in
  let! chunks := lift (text_chunks response) in
  let description := join (nl ++ nl) chunks in
  ret (enforce_word_limit description max_words).

(** ** [json.dumps] of a string (the default, ASCII-only encoder) *)

Module Json.

Definition hex_digit (n : N) : char :=
  (if n <? 10 then 48 + n else 87 + n)%N.

(** ['\\u{0:04x}'.format(n)] *)
Definition u_escape (n : N) : str :=
  [92; 117;
   hex_digit (N.land (N.shiftr n 12) 15); hex_digit (N.land (N.shiftr n 8) 15);
   hex_digit (N.land (N.shiftr n 4) 15); hex_digit (N.land n 15)]%N.

Definition escape_char (c : char) : str :=
  (if c =? 34 then [92; 34]
   else if c =? 92 then [92; 92]
   else if c =? 10 then [92; 110]
   else if c =? 13 then [92; 114]
   else if c =? 9 then [92; 116]
   else if c =? 8 then [92; 98]
   else if c =? 12 then [92; 102]
   else if (32 <=? c) && (c <=? 126) then [c]
   else if c <? 0x10000 then u_escape c
   else
     (* surrogate pair *)
     let n := c - 0x10000 in
     let s1 := N.lor 0xd800 (N.land (N.shiftr n 10) 0x3ff) in
     let s2 := N.lor 0xdc00 (N.land n 0x3ff) in
     u_escape s1 ++ u_escape s2)%N.

Definition dumps (s : str) : str :=
  [34%N] ++ flat_map escape_char s ++ [34%N].

End Json.

(** ** The page script ([app.py], lines 127-128 and 219-286)

    The page header (style sheet, picture, title; lines 130-217) is static
    markup: it reads and writes no state and is left out of [rendered]. *)

(** What the widgets report to one run of the script. *)
Record widgets := {
  uploaded_file : option PIL.buffer;
  max_words : Z;
  describe_clicked : bool;
  clear_clicked : bool;
  copy_clicked : bool;
  clear2_clicked : bool
}.

Definition nonempty (s : str) : bool := match s with [] => false | _ => true end.

Definition copy_component (description : str) : str :=
  nl ++ lit "        <script>" ++
  nl ++ lit "        navigator.clipboard.writeText(" ++ Json.dumps description ++ lit ");" ++
  nl ++ lit "        </script>" ++
  nl ++ lit "        ".

Definition error_message (e : exn) : str :=
  lit "Something went wrong talking to Claude: " ++ exn_str e.

Definition placeholder : str :=
  lit "_No description yet. Upload an image and click **Describe**._".

Definition script (w : world) (ui : widgets) : M unit :=
  (* if "description" not in st.session_state: ... *)
  (fun p => match session_state p !! "description"%string with
            | None => set_description [] p
            | Some _ => ret tt p
            end) >>
  match uploaded_file ui with
  | Some f => render (st_image f)
  | None => ret tt
  end >>
  when (clear_clicked ui) (set_description []) >>
  when (describe_clicked ui)
    (match uploaded_file ui with
     | None => render (st_warning (lit "Please upload an image first."))
     | Some f =>
         render (st_spinner (lit "Asking Claude to describe your image...")) >>
         try_except
           (let! d := describe_image_with_claude w f (max_words ui) in
            set_description (strip d))
           (fun e => render (st_error (error_message e)))
     end) >>
  render (st_markdown (lit "### Description")) >>
  (let! d := get_description in
   if nonempty d then render (st_markdown d) else render (st_write placeholder)) >>
  when (clear2_clicked ui) (set_description []) >>
  when (copy_clicked ui)
    (let! d := get_description in
     when (nonempty d)
       (render (st_html (copy_component d)) >>
        render (st_success (lit "Description copied to clipboard!")))).

(** One run of the script against a session: the page starts blank. *)
Definition rerun (w : world) (ui : widgets) (ss : gmap string str)
  : outcome unit * page :=
  script w ui {| session_state := ss; rendered := []; sent := [] |}.

(** The stored description; a fresh session counts as empty. *)
Definition DescriptionResult (ss : gmap string str) : str :=
  default [] (ss !! "description"%string).

(** *** User actions

    A click re-runs the script with exactly that button reporting [true];
    the staged file and the slider keep their values. *)

Inductive button := Describe | Clear | Copy | ClearText.

Definition click (b : option button) (staged : option PIL.buffer) (slider : Z)
  : widgets :=
  {| uploaded_file := staged;
     max_words := slider;
     describe_clicked := match b with Some Describe => true | _ => false end;
     clear_clicked := match b with Some Clear => true | _ => false end;
     copy_clicked := match b with Some Copy => true | _ => false end;
     clear2_clicked := match b with Some ClearText => true | _ => false end |}.

(** The session after a run. *)
Definition session_after (w : world) (ui : widgets) (ss : gmap string str)
  : gmap string str :=
  session_state (rerun w ui ss).2.

(** ** What the browser does with the copy component

    [st_html] hands its argument to the browser as an HTML document.  The
    HTML parser delimits the script element, the JavaScript engine then
    evaluates the element's text; [navigator.clipboard.writeText] receives
    the value of the string literal, a sequence of UTF-16 code units. *)

Module Browser.

Definition lower (c : char) : char :=
  (if (65 <=? c) && (c <=? 90) then c + 32 else c)%N.

(** [strip_prefix pat s]: what follows [pat] at the head of [s], letters
    compared without regard to case. *)
Fixpoint strip_prefix (pat s : str) : option str :=
  match pat, s with
  | [], _ => Some s
  | _ :: _, [] => None
  | a :: pat', c :: s' => if (lower a =? lower c)%N then strip_prefix pat' s' else None
  end.

(** An end tag of the script element starts here: the tag name is followed
    by whitespace, a slash or a closing bracket. *)
Definition at_script_end_tag (s : str) : bool :=
  match strip_prefix (lit "</script") s with
  | Some (c :: _) => existsb (N.eqb c) [9; 10; 12; 13; 32; 47; 62]%N
  | _ => false
  end.

(** The text of a script element whose start tag has just been read: all
    that comes before the first end tag.  Without an end tag the element
    never closes and nothing is run. *)
Fixpoint script_data (s : str) : option str :=
  match s with
  | [] => None
  | c :: s' =>
      if at_script_end_tag s then Some []
      else match script_data s' with
           | Some t => Some (c :: t)
           | None => None
           end
  end.

(** The text of the first script element of a document. *)
Fixpoint script_text (html : str) : option str :=
  match html with
  | [] => None
  | _ :: html' =>
      match strip_prefix (lit "<script>") html with
      | Some body => script_data body
      | None => script_text html'
      end
  end.

(** The UTF-16 code units of a code point. *)
Definition utf16 (c : char) : list N :=
  (if c <? 0x10000 then [c]
   else let n := c - 0x10000 in
        [0xd800 + N.shiftr n 10; 0xdc00 + N.land n 0x3ff])%N.

Definition hex_value (c : char) : option N :=
  (if (48 <=? c) && (c <=? 57) then Some (c - 48)
   else if (97 <=? c) && (c <=? 102) then Some (c - 87)
   else if (65 <=? c) && (c <=? 70) then Some (c - 55)
   else None)%N.

Definition hex4 (a b c d : char) : option N :=
  match hex_value a, hex_value b, hex_value c, hex_value d with
  | Some x, Some y, Some z, Some t => Some (((x * 16 + y) * 16 + z) * 16 + t)%N
  | _, _, _, _ => None
  end.

(** The value of a single-character escape [\e]. *)
Definition single_escape (e : char) : N :=
  (if e =? 110 then 10 else if e =? 114 then 13 else if e =? 116 then 9
   else if e =? 98 then 8 else if e =? 102 then 12 else if e =? 118 then 11
   else if e =? 48 then 0 else e)%N.

(** The value of a double-quoted string literal whose opening quote has
    just been read, and the source text after its closing quote.  A raw
    line break ends the source line and with it the literal, in error. *)
Fixpoint string_literal (s : str) : option (list N * str) :=
  match s with
  | [] => None
  | c :: rest =>
      if (c =? 34)%N then Some ([], rest)
      else if (c =? 92)%N then
        match rest with
        | [] => None
        | e :: rest1 =>
            if (e =? 117)%N then
              match rest1 with
              | h1 :: h2 :: h3 :: h4 :: rest2 =>
                  match hex4 h1 h2 h3 h4, string_literal rest2 with
                  | Some u, Some (v, rest') => Some (u :: v, rest')
                  | _, _ => None
                  end
              | _ => None
              end
            else if (e =? 120)%N then None
            else match string_literal rest1 with
                 | Some (v, rest') => Some (single_escape e :: v, rest')
                 | None => None
                 end
        end
      else if ((c =? 10) || (c =? 13))%N then None
      else match string_literal rest with
           | Some (v, rest') => Some (utf16 c ++ v, rest')
           | None => None
           end
  end.

Definition js_space (c : char) : bool :=
  existsb (N.eqb c) [9; 10; 11; 12; 13; 32]%N.

Fixpoint skip_space (s : str) : str :=
  match s with
  | c :: s' => if js_space c then skip_space s' else s
  | [] => []
  end.

(** Run a script that is the one statement
    [navigator.clipboard.writeText("...");]: the text written, or nothing
    when the source is not that statement. *)
Definition run_script (src : str) : option (list N) :=
  match strip_prefix (lit "navigator.clipboard.writeText(") (skip_space src) with
  | Some (34%N :: body) =>
      match string_literal body with
      | Some (v, rest) =>
          match strip_prefix (lit ");") rest with
          | Some tail => match skip_space tail with [] => Some v | _ => None end
          | None => None
          end
      | None => None
      end
  | _ => None
  end.

(** What reaches the clipboard when the elements of a page are shown. *)
Definition clipboard_writes (page : list element) : list (list N) :=
  flat_map (fun e => match e with
                     | st_html html =>
                         match script_text html with
                         | Some src => match run_script src with
                                       | Some v => [v]
                                       | None => []
                                       end
                         | None => []
                         end
                     | _ => []
                     end) page.

End Browser.

(** The clipboard's view of a text: its UTF-16 code units. *)
Definition dom_string (s : str) : list N := flat_map Browser.utf16 s.

(** ** The specification's vocabulary *)

(** *** Credential resolution as the specification words it: an ordered
    list of providers, tried in sequence, the first success wins. *)

(** What a source yields: the value it holds for the key, if it holds one
    that counts as a credential (a falsy value does not). *)
Definition secrets_provider (w : world) : option pyval :=
  match secrets w with
  | inl _ => None
  | inr sec =>
      match sec !! "ANTHROPIC_API_KEY"%string with
      | Some v => if truthy v then Some v else None
      | None => None
      end
  end.

Definition environ_provider (w : world) : option pyval :=
  match environ w !! "ANTHROPIC_API_KEY"%string with
  | Some s => if nonempty s then Some (VStr s) else None
  | None => None
  end.

Fixpoint first_success (providers : list (option pyval)) : option pyval :=
  match providers with
  | [] => None
  | Some v :: _ => Some v
  | None :: rest => first_success rest
  end.

Definition resolve_credential (w : world) : option pyval :=
  first_success [secrets_provider w; environ_provider w].

(** *** Images: two images show the same thing *)




(** A one-pixel picture: a fully transparent red dot. *)
Definition transparent_dot : PIL.image :=
  {| PIL.im_mode := PIL.M_RGBA;
     PIL.im_size := (1, 1);
     PIL.im_pixels := [ {| PIL.red := 255; PIL.green := 0; PIL.blue := 0; PIL.alpha := 0 |} ] |}.

(** *** Sample worlds *)

Definition text_block (t : str) : block :=
  {| b_type := Some (lit "text"); b_text := Some t |}.

(** A world whose secrets store holds an empty key, whose environment holds
    a real one, and whose service answers with one padded text block. *)
Definition sample_world : world :=
  {| secrets := inr {[ "ANTHROPIC_API_KEY"%string := VStr [] ]};
     environ := {[ "ANTHROPIC_API_KEY"%string := lit "sk-ant-env" ]};
     service := fun _ _ => inr [ text_block (lit "  **Picture Type:** Cat picture  ") ] |}.

(** A world with no credential anywhere. *)
Definition unconfigured_world : world :=
  {| secrets := inl (RuntimeError (lit "No secrets found."));
     environ := {[ "ANTHROPIC_API_KEY"%string := [] ]};
     service := fun _ _ => inr [] |}.

Definition sample_upload : PIL.buffer := PIL.Encoded PIL.WEBP transparent_dot.

(** A configured world whose service describes a picture of markup: its
    answer is the text of a script end tag. *)
Definition markup_world : world :=
  {| secrets := inr {[ "ANTHROPIC_API_KEY"%string := VStr (lit "sk-ant-secret") ]};
     environ := ∅;
     service := fun _ _ => inr [ text_block (lit "</script>") ] |}.

(** *** The Describe pipeline seen from outside *)

(** A page with nothing rendered and nothing sent. *)
Definition blank (ss : gmap string str) : page :=
  {| session_state := ss; rendered := []; sent := [] |}.

(** What [describe_image_with_claude] returns or raises, and the requests
    it sends. *)
Definition describe_result (w : world) (f : PIL.buffer) (v : Z) : outcome str :=
  (describe_image_with_claude w f v (blank ∅)).1.

Definition describe_sent (w : world) (f : PIL.buffer) (v : Z) : list request :=
  sent (describe_image_with_claude w f v (blank ∅)).2.


(** *** The presentation layer's state machine, as the specification
    describes it *)

(** The description a run leaves behind, from the one it found: Clear resets
    it, a successful Describe overwrites it with the stripped result, a
    failed or image-less Describe leaves it, Clear text resets it. *)
Definition next_description (w : world) (ui : widgets) (old : str) : str :=
  let d1 := if clear_clicked ui then [] else old in
  let d2 :=
    if describe_clicked ui
    then match uploaded_file ui with
         | Some f => match describe_result w f (max_words ui) with
                     | Return d => strip d
                     | Raise _ => d1
                     end
         | None => d1
         end
    else d1 in
  if clear2_clicked ui then [] else d2.

(** The description shown by a run: the one in store when the page reaches
    the result area, that is, before Clear text is handled. *)
Definition shown_description (w : world) (ui : widgets) (old : str) : str :=
  next_description w
    {| uploaded_file := uploaded_file ui; max_words := max_words ui;
       describe_clicked := describe_clicked ui; clear_clicked := clear_clicked ui;
       copy_clicked := copy_clicked ui; clear2_clicked := false |} old.

Definition result_area (d : str) : list element :=
  [ st_markdown (lit "### Description");
    if nonempty d then st_markdown d else st_write placeholder ].

(** The elements a run renders, top to bottom. *)
Definition page_elements (w : world) (ui : widgets) (old : str) : list element :=
  match uploaded_file ui with Some f => [st_image f] | None => [] end ++
  (if describe_clicked ui
   then match uploaded_file ui with
        | None => [st_warning (lit "Please upload an image first.")]
        | Some f =>
            st_spinner (lit "Asking Claude to describe your image...") ::
            match describe_result w f (max_words ui) with
            | Return _ => []
            | Raise e => [st_error (error_message e)]
            end
        end
   else []) ++
  result_area (shown_description w ui old) ++
  (if copy_clicked ui && nonempty (next_description w ui old)
   then [ st_html (copy_component (next_description w ui old));
          st_success (lit "Description copied to clipboard!") ]
   else []).

(** The requests a run sends. *)
Definition page_requests (w : world) (ui : widgets) : list request :=
  if describe_clicked ui
  then match uploaded_file ui with
       | Some f => describe_sent w f (max_words ui)
       | None => []
       end
  else [].

(** No whitespace at either end. *)
Definition starts_with_space (s : str) : bool :=
  match s with c :: _ => isspace c | [] => false end.

Definition trimmed (s : str) : bool :=
  negb (starts_with_space s) && negb (starts_with_space (rev s)).

(** The sessions a user can bring about: a fresh one, and whatever a run of
    the script makes of a reachable one, whatever the widgets report and
    whatever the world answers. *)
Inductive reachable : gmap string str -> Prop :=
| reachable_fresh : reachable ∅
| reachable_rerun (w : world) (ui : widgets) (ss : gmap string str) :
    reachable ss -> reachable (session_after w ui ss).

(** *** Texts *)

(** Unicode has the code points 0 .. 0x10FFFF; a [str] holds no others. *)
Definition is_code_point (c : char) : Prop := (c < 0x110000)%N.

(** The source text of the copy component's script element. *)
Definition copy_script (description : str) : str :=
  nl ++ lit "        navigator.clipboard.writeText(" ++ Json.dumps description
     ++ lit ");" ++ nl ++ lit "        ".

(** No character of the text opens a tag. *)
Definition tag_free (s : str) : Prop := Forall (fun c => c <> 60%N) s.

(** * Properties *)

(** ** Facts about [split], [join] and [strip] *)

Section SplitFacts.

Lemma split_go_run (u w s : str) :
  Forall (fun c => isspace c = false) u ->
  split_go w (u ++ s) = split_go (w ++ u) s.
Proof.
  intros Hu. revert w. induction Hu as [|c u Hc _ IH]; intros w.
  - by rewrite app_nil_r.
  - cbn [app split_go]. rewrite Hc, IH. by rewrite <- app_assoc.
Qed.

Lemma split_go_break (c : char) (w s : str) :
  isspace c = true -> w <> [] ->
  split_go w (c :: s) = w :: split_go [] s.
Proof. intros Hc Hw. cbn. rewrite Hc. by destruct w. Qed.

Lemma split_go_words (s : str) :
  forall w, Forall (fun c => isspace c = false) w ->
            Forall is_word (split_go w s).
Proof.
  induction s as [|c s IH]; intros w Hw; cbn.
  - destruct w; constructor; [|constructor]. split; [done | exact Hw].
  - destruct (isspace c) eqn:Hc.
    + destruct w as [|a w].
      * apply IH. constructor.
      * constructor; [split; [done | exact Hw] | apply IH; constructor].
    + apply IH. apply Forall_app. split; [exact Hw | by constructor].
Qed.

Lemma split_words (s : str) : Forall is_word (split s).
Proof. apply split_go_words. constructor. Qed.

Lemma length_append_last (t : str) (ws : list str) :
  length (append_last t ws) = length ws.
Proof.
  induction ws as [|w [|w' ws] IH]; [done | done |].
  change (S (length (append_last t (w' :: ws))) = S (length (w' :: ws))).
  by rewrite IH.
Qed.

(** Joining words by one blank and gluing a whitespace-free tail on the
    end splits back into the same words, the last one carrying the tail. *)
Lemma split_join_tail (t : str) (ws : list str) :
  ws <> [] ->
  Forall is_word ws -> Forall (fun c => isspace c = false) t ->
  split (join (lit " ") ws ++ t) = append_last t ws.
Proof.
  intros Hne Hws Ht. unfold split.
  induction Hws as [|w ws [Hw Hcs] Hws IH]; [done|].
  destruct ws as [|w' ws].
  - cbn [join append_last].
    rewrite <- (app_nil_r (w ++ t)) at 1. rewrite split_go_run.
    + cbn. destruct (w ++ t) eqn:E; [|done].
      apply app_eq_nil in E. by destruct E.
    + apply Forall_app. by split.
  - cbn [join append_last]. rewrite <- !app_assoc.
    rewrite split_go_run by done.
    change (lit " " ++ ?x) with (32%N :: x). cbn [app].
    rewrite split_go_break; [|done|done].
    f_equal. by apply IH.
Qed.

End SplitFacts.

(** ** The response post-processor *)

Lemma slice_to_take {A} (l : list A) (n : Z) :
  0 <= n -> slice_to l n = take (Z.to_nat n) l.
Proof. intros Hn. unfold slice_to. by rewrite (proj2 (Z.leb_le 0 n) Hn). Qed.

Lemma Forall_take_words (n : nat) (ws : list str) :
  Forall is_word ws -> Forall is_word (take n ws).
Proof. apply Forall_take. Qed.

(** Over the limit: the first [w] words, one blank between them, the
    ellipsis glued to the last. *)
Lemma enforce_word_limit_over (text : str) (w : Z) :
  1 <= w -> w < word_count text ->
  enforce_word_limit text w
    = join (lit " ") (take (Z.to_nat w) (split text)) ++ lit "..." /\
  split (enforce_word_limit text w)
    = append_last (lit "...") (take (Z.to_nat w) (split text)) /\
  word_count (enforce_word_limit text w) = w.
Proof.
  intros Hw Hlt. unfold word_count, len in *.
  assert (E : enforce_word_limit text w
              = join (lit " ") (take (Z.to_nat w) (split text)) ++ lit "...").
  { unfold enforce_word_limit, len.
    rewrite (proj2 (Z.leb_gt _ _) Hlt). by rewrite slice_to_take by lia. }
  assert (S : split (enforce_word_limit text w)
              = append_last (lit "...") (take (Z.to_nat w) (split text))).
  { rewrite E. apply split_join_tail.
    - destruct (split text) as [|x l]; [cbn in Hlt; lia|].
      destruct (Z.to_nat w) eqn:En; [lia | done].
    - apply Forall_take_words, split_words.
    - by repeat constructor. }
  split; [exact E | split; [exact S |]].
  rewrite S, length_append_last, length_take. lia.
Qed.

Lemma enforce_word_limit_under (text : str) (w : Z) :
  word_count text <= w -> enforce_word_limit text w = text.
Proof.
  intros Hle. unfold enforce_word_limit, word_count in *.
  by rewrite (proj2 (Z.leb_le _ _) Hle).
Qed.

(** With a limit of at least one word the result never has more words than
    the limit. *)
Lemma enforce_word_limit_bound (text : str) (w : Z) :
  1 <= w -> word_count (enforce_word_limit text w) <= w.
Proof.
  intros Hw. destruct (Z_le_gt_dec (word_count text) w) as [Hle|Hgt].
  - by rewrite enforce_word_limit_under.
  - destruct (enforce_word_limit_over text w) as (_ & _ & ->); lia.
Qed.

(** C1. For every word limit [w] between 1 and 300 and every text,
    [enforce_word_limit] returns a text of at most [w] whitespace-delimited
    words; a text that already has at most [w] words comes back unchanged;
    a longer text comes back as exactly its first [w] words followed by the
    ellipsis marker. *)
Theorem enforce_word_limit_spec (text : str) (w : Z) :
  1 <= w <= 300 ->
  word_count (enforce_word_limit text w) <= w /\
  (word_count text <= w -> enforce_word_limit text w = text) /\
  (w < word_count text ->
   enforce_word_limit text w
     = join (lit " ") (take (Z.to_nat w) (split text)) ++ lit "..." /\
   split (enforce_word_limit text w)
     = append_last (lit "...") (take (Z.to_nat w) (split text)) /\
   word_count (enforce_word_limit text w) = w).
Proof.
  intros [Hlo Hhi]. split; [by apply enforce_word_limit_bound|]. split.
  - apply enforce_word_limit_under.
  - by apply enforce_word_limit_over.
Qed.

Lemma enforce_word_limit_spec_witness :
  word_count (enforce_word_limit (lit "a tabby cat asleep on a red sofa") 3) <= 3 /\
  (word_count (lit "a tabby cat asleep on a red sofa") <= 3 ->
   enforce_word_limit (lit "a tabby cat asleep on a red sofa") 3
     = lit "a tabby cat asleep on a red sofa") /\
  (3 < word_count (lit "a tabby cat asleep on a red sofa") ->
   enforce_word_limit (lit "a tabby cat asleep on a red sofa") 3
     = join (lit " ") (take (Z.to_nat 3) (split (lit "a tabby cat asleep on a red sofa")))
       ++ lit "..." /\
   split (enforce_word_limit (lit "a tabby cat asleep on a red sofa") 3)
     = append_last (lit "...")
         (take (Z.to_nat 3) (split (lit "a tabby cat asleep on a red sofa"))) /\
   word_count (enforce_word_limit (lit "a tabby cat asleep on a red sofa") 3) = 3).
Proof. apply (enforce_word_limit_spec (lit "a tabby cat asleep on a red sofa") 3). lia. Defined.

Example enforce_word_limit_truncates :
  enforce_word_limit (lit "a tabby cat asleep on a red sofa") 3 = lit "a tabby cat...".
Proof. reflexivity. Qed.

Example enforce_word_limit_keeps :
  enforce_word_limit (lit "  a tabby   cat ") 3 = lit "  a tabby   cat ".
Proof. reflexivity. Qed.

(** ** Credential resolution *)

Section Credentials.

Variable w : world.

Lemma truthy_VStr (s : str) : truthy (VStr s) = nonempty s.
Proof. by destruct s. Qed.

(** The code's two-step lookup is the specification's provider chain. *)
Lemma get_claude_client_resolve :
  get_claude_client w =
    match resolve_credential w with
    | Some k => Return {| api_key := k |}
    | None => Raise (RuntimeError missing_key_message)
    end.
Proof.
  unfold get_claude_client, resolve_credential, first_success,
    secrets_provider, environ_provider.
  destruct (secrets w) as [e|sec].
  - cbn [truthy negb]. destruct (environ w !! "ANTHROPIC_API_KEY"%string) as [s|]; [|done].
    rewrite truthy_VStr. by destruct (nonempty s).
  - destruct (sec !! "ANTHROPIC_API_KEY"%string) as [v|].
    + destruct (truthy v) eqn:Hv; cbn [negb].
      * by rewrite Hv.
      * destruct (environ w !! "ANTHROPIC_API_KEY"%string) as [s|]; [|done].
        rewrite truthy_VStr. by destruct (nonempty s).
    + cbn [truthy negb]. destruct (environ w !! "ANTHROPIC_API_KEY"%string) as [s|]; [|done].
      rewrite truthy_VStr. by destruct (nonempty s).
Qed.


End Credentials.



Example sample_world_uses_environment :
  get_claude_client sample_world = Return {| api_key := VStr (lit "sk-ant-env") |}.
Proof. reflexivity. Qed.

Example unconfigured_world_raises :
  get_claude_client unconfigured_world = Raise (RuntimeError missing_key_message).
Proof. reflexivity. Qed.

(** ** The image normalizer *)






(** ** The Describe pipeline *)

(** The pipeline touches the page only by appending the requests it sends;
    what it returns does not depend on the page. *)
Lemma describe_image_with_claude_frame (w : world) (f : PIL.buffer) (v : Z) (p : page) :
  describe_image_with_claude w f v p
    = (describe_result w f v,
       {| session_state := session_state p;
          rendered := rendered p;
          sent := sent p ++ describe_sent w f v |}).
Proof.
  unfold describe_result, describe_sent, describe_image_with_claude,
    bind, lift, ret, messages_create, blank.
  destruct p as [ss rd sn]. cbn [session_state rendered sent].
  destruct (to_png_bytes f) as [png|e]; [|by rewrite app_nil_r].
  destruct (get_claude_client w) as [client|e]; [|by rewrite app_nil_r].
  cbn [session_state rendered sent fst snd].
  destruct (service w client _) as [e|blocks]; [done|].
  cbn [session_state rendered sent fst snd].
  by destruct (text_chunks blocks).
Qed.

Lemma describe_result_post_processed (w : world) (f : PIL.buffer) (v : Z) (d : str) :
  describe_result w f v = Return d ->
  exists chunks, d = enforce_word_limit (join (nl ++ nl) chunks) (Z.min v 300).
Proof.
  unfold describe_result, describe_image_with_claude, bind, lift, ret,
    messages_create, blank.
  destruct (to_png_bytes f) as [png|e]; [|done].
  destruct (get_claude_client w) as [client|e]; [|done].
  destruct (service w client _) as [e|blocks]; [done|].
  cbn. destruct (text_chunks blocks) as [chunks|e]; [|done].
  cbn. intros [= <-]. by exists chunks.
Qed.



(** With a limit of at least one word, whatever the pipeline returns has at
    most [min v 300] words, hence never more than 300. *)
Corollary describe_result_within_limit (w : world) (f : PIL.buffer) (v : Z) (d : str) :
  1 <= v -> describe_result w f v = Return d ->
  word_count d <= Z.min v 300 <= 300.
Proof.
  intros Hv Hd. split; [|lia].
  destruct (describe_result_post_processed w f v d Hd) as (chunks & ->).
  apply enforce_word_limit_bound. lia.
Qed.

(** ** The page script *)

Lemma DescriptionResult_insert (d : str) (ss : gmap string str) :
  DescriptionResult (<["description"%string := d]> ss) = d.
Proof. unfold DescriptionResult. by rewrite lookup_insert_eq. Qed.

Ltac step_script :=
  repeat first
    [ progress cbn [session_state rendered sent fst snd app option.default
                    negb andb orb]
    | rewrite describe_image_with_claude_frame
    | rewrite lookup_insert_eq
    | rewrite insert_insert_eq
    | rewrite app_nil_r ].

(** One run of the script, in closed form: it never raises, it leaves the
    description the state machine prescribes, it renders [page_elements] and
    sends [page_requests]. *)
Lemma rerun_summary (w : world) (ui : widgets) (ss : gmap string str) :
  rerun w ui ss
    = (Return tt,
       {| session_state :=
            <["description"%string := next_description w ui (DescriptionResult ss)]> ss;
          rendered := page_elements w ui (DescriptionResult ss);
          sent := page_requests w ui |}).
Proof.
  unfold rerun, script, page_elements, page_requests, shown_description,
    next_description, result_area, DescriptionResult.
  destruct ui as [up v dc cc pc c2]. cbn [uploaded_file max_words describe_clicked
    clear_clicked copy_clicked clear2_clicked].
  unfold bind, when, ret, render, set_description, get_description, try_except, blank.
  cbn [session_state rendered sent].
  destruct (ss !! "description"%string) as [d0|] eqn:Hd0;
    destruct up as [f|], cc, dc; step_script;
    try destruct (describe_result w f v) as [d|e]; step_script;
    try rewrite Hd0; step_script.
  all: try match goal with |- context [nonempty ?x] => destruct (nonempty x) eqn:? end; step_script.
  all: destruct c2, pc; step_script; try rewrite Hd0; step_script.
  all: unfold id in *.
  all: repeat match goal with
       | H : nonempty ?x = _ |- _ => rewrite !H
       | |- context [nonempty ?x] => destruct (nonempty x) eqn:?
       end; step_script.
  all: try rewrite <- !app_assoc; step_script.
  all: try rewrite (insert_id ss _ d0) by done.
  all: try reflexivity.
  all: cbn [nonempty] in *; try congruence.
Qed.


(** *** Describe *)


(** The three kinds of failure are failures of the pipeline. *)
Lemma describe_result_decode_failure (w : world) (f : PIL.buffer) (v : Z) (e : exn) :
  to_png_bytes f = Raise e -> describe_result w f v = Raise e.
Proof.
  intros H. unfold describe_result, describe_image_with_claude, bind, lift.
  by rewrite H.
Qed.

Lemma describe_result_missing_credential
    (w : world) (f : PIL.buffer) (v : Z) (png : PIL.buffer) (e : exn) :
  to_png_bytes f = Return png -> get_claude_client w = Raise e ->
  describe_result w f v = Raise e.
Proof.
  intros H1 H2. unfold describe_result, describe_image_with_claude, bind, lift.
  by rewrite H1, H2.
Qed.

Lemma describe_result_service_failure
    (w : world) (f : PIL.buffer) (v : Z) (png : PIL.buffer) (c : Anthropic) (e : exn) :
  to_png_bytes f = Return png -> get_claude_client w = Return c ->
  service w c (describe_request (b64encode png) (user_prompt (Z.min v 300))) = inl e ->
  describe_result w f v = Raise e.
Proof.
  intros H1 H2 H3.
  unfold describe_result, describe_image_with_claude, bind, lift, messages_create.
  by rewrite H1, H2, H3.
Qed.

Example describe_unconfigured :
  let ss : gmap string str := {[ "description"%string := lit "an earlier result" ]} in
  let r := rerun unconfigured_world (click (Some Describe) (Some sample_upload) 50) ss in
  DescriptionResult (session_state r.2) = lit "an earlier result" /\
  rendered r.2 =
    [ st_image sample_upload;
      st_spinner (lit "Asking Claude to describe your image...");
      st_error (lit "Something went wrong talking to Claude: " ++ missing_key_message);
      st_markdown (lit "### Description");
      st_markdown (lit "an earlier result") ] /\
  sent r.2 = [].
Proof. vm_compute. done. Qed.

(** C6. A Describe with no image staged renders the warning, sends no
    request, and leaves the stored description unchanged. *)
Theorem describe_without_image (w : world) (ss : gmap string str) (v : Z) :
  let r := rerun w (click (Some Describe) None v) ss in
  r.1 = Return tt /\
  rendered r.2 = st_warning (lit "Please upload an image first.")
                   :: result_area (DescriptionResult ss) /\
  sent r.2 = [] /\
  DescriptionResult (session_state r.2) = DescriptionResult ss.
Proof.
  cbv zeta. rewrite rerun_summary. cbn [fst snd session_state rendered sent].
  rewrite DescriptionResult_insert. repeat split.
Qed.

(** *** Clear and Clear text *)


(** The two differ in what the run itself shows: Clear is handled above the
    result area, Clear text below it, so the run of a Clear text click still
    renders the description it is about to erase. *)
Remark clear_text_renders_before_reset
    (w : world) (v : Z) (ss : gmap string str) :
  rendered (rerun w (click (Some Clear) None v) ss).2 = result_area [] /\
  rendered (rerun w (click (Some ClearText) None v) ss).2
    = result_area (DescriptionResult ss).
Proof. rewrite !rerun_summary. split; reflexivity. Qed.

(** *** Copy *)


(** With a non-empty description Copy renders the component that carries
    the JSON text of exactly the description shown, then the confirmation. *)
Lemma copy_renders_component
    (w : world) (v : Z) (ss : gmap string str) :
  DescriptionResult ss <> [] ->
  rendered (rerun w (click (Some Copy) None v) ss).2
    = [ st_markdown (lit "### Description");
        st_markdown (DescriptionResult ss);
        st_html (copy_component (DescriptionResult ss));
        st_success (lit "Description copied to clipboard!") ].
Proof.
  intros Hd. rewrite rerun_summary. cbn [snd rendered].
  unfold page_elements, shown_description, next_description, click, result_area.
  cbn [uploaded_file max_words describe_clicked clear_clicked copy_clicked
       clear2_clicked andb app].
  by destruct (DescriptionResult ss).
Qed.

Example copy_hands_over_markdown :
  let text := lit "**Picture Type:** Cat picture" ++ nl ++ lit "- a " ++ [34%N]
              ++ lit "tabby" ++ [34%N; 128008%N] in
  let ss : gmap string str := {[ "description"%string := text ]} in
  Browser.clipboard_writes (rendered (rerun sample_world (click (Some Copy) None 100) ss).2)
    = [dom_string text].
Proof. vm_compute. reflexivity. Qed.

(** C8 (at the failing input).  A Describe in a world whose service answers
    [</script>] stores that text.  It is then shown, and Copy renders the
    component and the confirmation, but the text never reaches the
    clipboard: inside the component the description's own end tag closes the
    script element in the middle of the string literal, and what is left is
    not a statement. *)
Theorem copy_loses_text_with_end_tag (v : Z) :
  let ss := session_after markup_world
              (click (Some Describe) (Some sample_upload) 100) ∅ in
  let r := rerun markup_world (click (Some Copy) None v) ss in
  reachable ss /\
  DescriptionResult ss = lit "</script>" /\
  rendered r.2
    = [ st_markdown (lit "### Description");
        st_markdown (lit "</script>");
        st_html (copy_component (lit "</script>"));
        st_success (lit "Description copied to clipboard!") ] /\
  Browser.script_text (copy_component (lit "</script>"))
    = Some (nl ++ lit "        navigator.clipboard.writeText(" ++ [34%N]) /\
  Browser.clipboard_writes (rendered r.2) = [] /\
  Browser.clipboard_writes (rendered r.2) <> [dom_string (lit "</script>")].
Proof.
  cbv zeta.
  assert (E : DescriptionResult
                (session_after markup_world
                   (click (Some Describe) (Some sample_upload) 100) ∅)
              = lit "</script>") by (vm_compute; reflexivity).
  split; [constructor; constructor|]. split; [exact E|].
  rewrite copy_renders_component by (rewrite E; discriminate).
  rewrite E. split; [reflexivity|]. split; [vm_compute; reflexivity|].
  split; [vm_compute; reflexivity | vm_compute; discriminate].
Qed.

(** ** JSON text read back as a string literal *)

Lemma hex_value_hex_digit (d : N) :
  (d < 16)%N -> Browser.hex_value (Json.hex_digit d) = Some d.
Proof.
  intros Hd. unfold Json.hex_digit, Browser.hex_value.
  destruct (N.ltb_spec d 10).
  - replace ((48 <=? 48 + d) && (48 + d <=? 57))%N with true.
    + f_equal. lia.
    + symmetry. apply andb_true_iff. split; apply N.leb_le; lia.
  - replace ((48 <=? 87 + d) && (87 + d <=? 57))%N with false.
    + replace ((97 <=? 87 + d) && (87 + d <=? 102))%N with true.
      * f_equal. lia.
      * symmetry. apply andb_true_iff. split; apply N.leb_le; lia.
    + symmetry. apply andb_false_iff. right. apply N.leb_gt. lia.
Qed.

Lemma nibble (n k : N) : (N.land (N.shiftr n k) 15 = n / 2 ^ k mod 16)%N.
Proof.
  rewrite N.shiftr_div_pow2. change 15%N with (N.ones 4).
  by rewrite N.land_ones.
Qed.

(** Four hexadecimal digits written by the encoder read back as the number. *)
Lemma hex4_u_escape (n : N) (k : str) :
  (n < 0x10000)%N ->
  exists a b c d,
    Json.u_escape n ++ k = 92%N :: 117%N :: a :: b :: c :: d :: k /\
    Browser.hex4 a b c d = Some n.
Proof.
  intros Hn. unfold Json.u_escape.
  eexists _, _, _, _. split; [reflexivity|].
  unfold Browser.hex4.
  replace (N.land n 15) with (N.land (N.shiftr n 0) 15) by by rewrite N.shiftr_0_r.
  rewrite !nibble.
  rewrite !hex_value_hex_digit by (apply N.mod_lt; lia).
  f_equal. change (2 ^ 12)%N with 4096%N. change (2 ^ 8)%N with 256%N.
  change (2 ^ 4)%N with 16%N. change (2 ^ 0)%N with 1%N.
  rewrite N.div_1_r.
  zify. Z.to_euclidean_division_equations. lia.
Qed.

Lemma lor_low_bits (b x : N) :
  (b = 0xd800 \/ b = 0xdc00)%N -> (x < 1024)%N -> N.lor b x = (b + x)%N.
Proof.
  intros Hb Hx.
  assert (Hand : N.land b x = 0%N).
  { apply N.bits_inj_0. intros i. rewrite N.land_spec.
    destruct (N.ltb_spec i 10) as [Hi|Hi].
    - replace (N.testbit b i) with false; [done|].
      assert (Hc : List.In i [0;1;2;3;4;5;6;7;8;9]%N) by (cbn; lia).
      cbn in Hc. destruct Hb as [-> | ->]; intuition (subst; reflexivity).
    - replace (N.testbit x i) with false; [apply andb_false_r|].
      symmetry. destruct (N.eq_dec x 0%N) as [->|Hx0]; [apply N.bits_0|].
      apply N.bits_above_log2. apply N.lt_le_trans with 10%N; [|done].
      apply N.log2_lt_pow2; lia. }
  rewrite <- N.lxor_lor by done. symmetry. by apply N.add_nocarry_lxor.
Qed.

(** The two halves of a surrogate pair, as the encoder computes them with
    masks and as UTF-16 defines them with sums. *)
Lemma surrogates (n : N) :
  (n < 0x100000)%N ->
  (N.lor 0xd800 (N.land (N.shiftr n 10) 0x3ff) = 0xd800 + N.shiftr n 10 /\
   N.lor 0xdc00 (N.land n 0x3ff) = 0xdc00 + N.land n 0x3ff /\
   0xd800 + N.shiftr n 10 < 0x10000 /\
   0xdc00 + N.land n 0x3ff < 0x10000)%N.
Proof.
  intros Hn.
  assert (Hs : (N.shiftr n 10 < 1024)%N).
  { rewrite N.shiftr_div_pow2. change (2 ^ 10)%N with 1024%N.
    apply N.Div0.div_lt_upper_bound. lia. }
  assert (Hl : (N.land n 0x3ff < 1024)%N).
  { change 0x3ff%N with (N.ones 10). rewrite N.land_ones.
    by apply N.mod_lt. }
  assert (Hss : N.land (N.shiftr n 10) 0x3ff = N.shiftr n 10).
  { change 0x3ff%N with (N.ones 10). rewrite N.land_ones.
    by apply N.mod_small. }
  rewrite Hss. rewrite !lor_low_bits by (auto; lia). lia.
Qed.

Lemma string_literal_u_escape (n : N) (k : str) :
  (n < 0x10000)%N ->
  Browser.string_literal (Json.u_escape n ++ k)
    = match Browser.string_literal k with
      | Some (v, rest) => Some (n :: v, rest)
      | None => None
      end.
Proof.
  intros Hn. destruct (hex4_u_escape n k Hn) as (a & b & c & d & -> & Hhex).
  cbn [Browser.string_literal]. change (92 =? 34)%N with false.
  change (92 =? 92)%N with true. change (117 =? 117)%N with true.
  cbn match. by rewrite Hhex.
Qed.

(** One character of JSON text reads back as that character's code units. *)
Lemma string_literal_escape_char (c : char) (k : str) :
  is_code_point c ->
  Browser.string_literal (Json.escape_char c ++ k)
    = match Browser.string_literal k with
      | Some (v, rest) => Some (Browser.utf16 c ++ v, rest)
      | None => None
      end.
Proof.
  intros Hc. unfold Json.escape_char.
  repeat match goal with
  | |- context [(c =? ?x)%N] =>
      destruct (N.eqb_spec c x) as [->|?]; [reflexivity|]
  end.
  destruct ((32 <=? c) && (c <=? 126))%N eqn:Hp.
  - apply andb_true_iff in Hp. destruct Hp as [H1%N.leb_le H2%N.leb_le].
    cbn [app Browser.string_literal].
    rewrite !(proj2 (N.eqb_neq c _)) by done. cbn [orb].
    unfold Browser.utf16. by rewrite (proj2 (N.ltb_lt c _)) by lia.
  - destruct (N.ltb_spec c 0x10000) as [Hlt|Hge].
    + rewrite string_literal_u_escape by done.
      unfold Browser.utf16. by rewrite (proj2 (N.ltb_lt c _)) by done.
    + cbv zeta. unfold is_code_point in Hc.
      destruct (surrogates (c - 0x10000)) as (E1 & E2 & B1 & B2); [lia|].
      rewrite E1, E2, <- app_assoc, !string_literal_u_escape by done.
      unfold Browser.utf16. rewrite (proj2 (N.ltb_ge c _)) by done.
      by destruct (Browser.string_literal k) as [[v rest]|].
Qed.

(** JSON text reads back, as the string literal it is, as the UTF-16 form
    of the text it was made from. *)
Lemma string_literal_dumps (s k : str) :
  Forall is_code_point s ->
  Browser.string_literal (flat_map Json.escape_char s ++ 34%N :: k)
    = Some (dom_string s, k).
Proof.
  induction 1 as [|c s Hc _ IH]; [done|].
  cbn [flat_map]. rewrite <- app_assoc, string_literal_escape_char by done.
  by rewrite IH.
Qed.

(** ** The copy component in the browser *)

Lemma strip_prefix_tag_free (pat s : str) (c : char) :
  c <> 60%N -> Browser.strip_prefix (60%N :: pat) (c :: s) = None.
Proof.
  intros Hc. cbn [Browser.strip_prefix].
  replace (Browser.lower 60 =? Browser.lower c)%N with false; [done|].
  symmetry. apply N.eqb_neq. unfold Browser.lower.
  change ((65 <=? 60) && (60 <=? 90))%N with false. cbn match.
  destruct ((65 <=? c) && (c <=? 90))%N eqn:E; [|congruence].
  apply andb_true_iff in E. destruct E as [E%N.leb_le _]. lia.
Qed.

Lemma script_text_skip (pre s : str) :
  tag_free pre -> Browser.script_text (pre ++ s) = Browser.script_text s.
Proof.
  induction 1 as [|c pre Hc _ IH]; [done|].
  cbn [app Browser.script_text].
  change (lit "<script>") with (60%N :: lit "script>").
  by rewrite strip_prefix_tag_free.
Qed.

Lemma script_data_skip (pre s : str) :
  tag_free pre ->
  Browser.script_data (pre ++ s)
    = match Browser.script_data s with
      | Some t => Some (pre ++ t)
      | None => None
      end.
Proof.
  induction 1 as [|c pre Hc _ IH];
    [cbn [app]; by destruct (Browser.script_data s)|].
  cbn [app Browser.script_data]. unfold Browser.at_script_end_tag.
  change (lit "</script") with (60%N :: lit "/script").
  rewrite strip_prefix_tag_free by done. rewrite IH.
  by destruct (Browser.script_data s).
Qed.

Lemma hex_digit_tag_free (d : N) : Json.hex_digit d <> 60%N.
Proof. unfold Json.hex_digit. destruct (N.ltb_spec d 10); lia. Qed.

Lemma escape_char_tag_free (c : char) :
  c <> 60%N -> tag_free (Json.escape_char c).
Proof.
  intros Hc. unfold Json.escape_char, Json.u_escape, tag_free.
  repeat match goal with
  | |- context [if ?b then _ else _] => destruct b
  end;
  repeat first [ apply Forall_app; split | constructor ];
  first [ done | apply hex_digit_tag_free ].
Qed.

Lemma escaped_tag_free (s : str) :
  tag_free s -> tag_free (flat_map Json.escape_char s).
Proof.
  induction 1 as [|c s Hc _ IH]; [constructor|].
  cbn [flat_map]. apply Forall_app. split; [|exact IH].
  by apply escape_char_tag_free.
Qed.

Lemma copy_component_shape (d : str) :
  copy_component d
    = (nl ++ lit "        ") ++ lit "<script>" ++ copy_script d
        ++ lit "</script>" ++ nl ++ lit "        ".
Proof.
  unfold copy_component, copy_script.
  change (lit "        <script>") with (lit "        " ++ lit "<script>").
  change (lit "        </script>") with (lit "        " ++ lit "</script>").
  by rewrite <- !app_assoc.
Qed.

(** For a description that opens no tag, the script element holds the whole
    statement. *)
Lemma script_text_copy_component (d : str) :
  tag_free d -> Browser.script_text (copy_component d) = Some (copy_script d).
Proof.
  intros Hd. rewrite copy_component_shape.
  rewrite script_text_skip by (by repeat constructor).
  change (Browser.script_text (lit "<script>" ++ ?x)) with (Browser.script_data x).
  rewrite script_data_skip.
  - change (Browser.script_data (lit "</script>" ++ ?x)) with (Some (@nil char)).
    cbn match. by rewrite app_nil_r.
  - unfold copy_script, Json.dumps, tag_free. rewrite !Forall_app.
    repeat split; try (by repeat constructor). by apply escaped_tag_free.
Qed.

(** Running the statement writes the text. *)
Lemma run_copy_script (d : str) :
  Forall is_code_point d ->
  Browser.run_script (copy_script d) = Some (dom_string d).
Proof.
  intros Hd. unfold Browser.run_script, copy_script, Json.dumps.
  change (Browser.skip_space (nl ++ lit "        navigator.clipboard.writeText(" ++ ?x))
    with (lit "navigator.clipboard.writeText(" ++ x).
  change (Browser.strip_prefix (lit "navigator.clipboard.writeText(")
            (lit "navigator.clipboard.writeText(" ++ ?x)) with (Some x).
  cbn [app]. rewrite <- app_assoc. cbn [app].
  by rewrite string_literal_dumps.
Qed.

(** A non-empty description that opens no tag reaches the clipboard exactly
    as it is shown. *)
Lemma copy_hands_over_text (w : world) (v : Z) (ss : gmap string str) :
  DescriptionResult ss <> [] ->
  Forall is_code_point (DescriptionResult ss) ->
  tag_free (DescriptionResult ss) ->
  let r := rerun w (click (Some Copy) None v) ss in
  In (st_markdown (DescriptionResult ss)) (rendered r.2) /\
  Browser.clipboard_writes (rendered r.2) = [dom_string (DescriptionResult ss)].
Proof.
  intros Hne Hcp Htf. cbv zeta. rewrite copy_renders_component by done.
  split; [cbn; tauto|].
  unfold Browser.clipboard_writes. cbn [flat_map app].
  by rewrite script_text_copy_component, run_copy_script.
Qed.

(** ** [strip] *)





(** ** The invariant of the stored description *)





(** * Further properties of the code *)

(** ** The post-processor beyond its contract *)

Lemma take_append_last (t : str) (ws : list str) (n : nat) :
  (n < length ws)%nat -> take n (append_last t ws) = take n ws.
Proof.
  revert n. induction ws as [|w ws IH]; intros n Hn; [done|].
  destruct ws as [|w' ws].
  - cbn in Hn. by replace n with 0%nat by lia.
  - change (append_last t (w :: w' :: ws)) with (w :: append_last t (w' :: ws)).
    destruct n as [|n]; [done|]. cbn [take]. f_equal. apply IH. cbn in *. lia.
Qed.

Lemma lstrip_id (s : str) : starts_with_space s = false -> lstrip s = s.
Proof. destruct s as [|c s]; [done|]. cbn. by intros ->. Qed.

(** A text with no whitespace at either end is what [strip] returns for it. *)
Lemma strip_trimmed (s : str) : trimmed s = true -> strip s = s.
Proof.
  unfold trimmed, strip, rstrip. intros H. apply andb_true_iff in H.
  destruct H as [H1%negb_true_iff H2%negb_true_iff].
  rewrite (lstrip_id s) by done. rewrite lstrip_id by done.
  apply rev_involutive.
Qed.

(** X1. Post-processing is idempotent: with a limit of at least one word,
    applying [enforce_word_limit] to its own result changes nothing. *)
Theorem enforce_word_limit_idempotent (text : str) (w : Z) :
  1 <= w ->
  enforce_word_limit (enforce_word_limit text w) w = enforce_word_limit text w.
Proof.
  intros Hw. apply enforce_word_limit_under. by apply enforce_word_limit_bound.
Qed.

Lemma enforce_word_limit_idempotent_witness :
  enforce_word_limit (enforce_word_limit (lit "a tabby cat asleep on a red sofa") 3) 3
    = enforce_word_limit (lit "a tabby cat asleep on a red sofa") 3.
Proof.
  apply (enforce_word_limit_idempotent (lit "a tabby cat asleep on a red sofa") 3). lia.
Defined.

(** X2. Limits compose: cutting to [w'] words and then to [w <= w'] words
    gives what cutting to [w] words at once gives. *)
Theorem enforce_word_limit_compose (text : str) (w w' : Z) :
  1 <= w -> w <= w' ->
  enforce_word_limit (enforce_word_limit text w') w = enforce_word_limit text w.
Proof.
  intros Hw Hww.
  destruct (Z_le_gt_dec (word_count text) w') as [Hle|Hgt].
  { by rewrite (enforce_word_limit_under text w'). }
  destruct (Z.eq_dec w w') as [->|Hne].
  { apply enforce_word_limit_under. by apply enforce_word_limit_bound. }
  destruct (enforce_word_limit_over text w') as (_ & S' & C'); [lia|lia|].
  destruct (enforce_word_limit_over (enforce_word_limit text w') w)
    as (E & _ & _); [lia|lia|].
  destruct (enforce_word_limit_over text w) as (E0 & _ & _); [lia|lia|].
  rewrite E, E0, S'. do 2 f_equal.
  rewrite take_append_last.
  - rewrite take_take. f_equal. lia.
  - rewrite length_take. unfold word_count, len in Hgt. lia.
Qed.

Lemma enforce_word_limit_compose_witness :
  enforce_word_limit (enforce_word_limit (lit "a tabby cat asleep on a red sofa") 5) 2
    = enforce_word_limit (lit "a tabby cat asleep on a red sofa") 2.
Proof.
  apply (enforce_word_limit_compose (lit "a tabby cat asleep on a red sofa") 2 5); lia.
Defined.

(** X3. A text that was cut has no whitespace at either end: stripping it,
    as the Describe handler does, changes nothing.  Stripping matters only
    for a text that passed uncut. *)
Theorem truncated_text_is_trimmed (text : str) (w : Z) :
  1 <= w -> w < word_count text ->
  trimmed (enforce_word_limit text w) = true /\
  strip (enforce_word_limit text w) = enforce_word_limit text w.
Proof.
  intros Hw Hlt.
  assert (T : trimmed (enforce_word_limit text w) = true).
  { destruct (enforce_word_limit_over text w) as (E & _ & _); [lia|lia|].
    rewrite E. unfold trimmed. apply andb_true_iff. split; apply negb_true_iff.
    - pose proof (Forall_take_words (Z.to_nat w) _ (split_words text)) as Hws.
      destruct (take (Z.to_nat w) (split text)) as [|x ws] eqn:Et.
      + apply (f_equal length) in Et. rewrite length_take in Et.
        unfold word_count, len in Hlt. cbn in Et. lia.
      + apply Forall_cons in Hws. destruct Hws as [[Hne Hx] _].
        destruct x as [|c x]; [done|].
        apply Forall_cons in Hx as [Hc _].
        destruct ws; cbn [join app starts_with_space]; exact Hc.
    - by rewrite rev_app_distr. }
  split; [exact T | by apply strip_trimmed].
Qed.

Lemma truncated_text_is_trimmed_witness :
  trimmed (enforce_word_limit (lit "  a tabby   cat asleep ") 2) = true /\
  strip (enforce_word_limit (lit "  a tabby   cat asleep ") 2)
    = enforce_word_limit (lit "  a tabby   cat asleep ") 2.
Proof.
  apply (truncated_text_is_trimmed (lit "  a tabby   cat asleep ") 2);
    [lia | vm_compute; reflexivity].
Defined.

(** X4. The function has no lower bound of its own.  With a limit of zero
    or less, a text of at least one word comes back with more words than the
    limit allows; with a limit of zero it comes back as the bare ellipsis. *)
Theorem enforce_word_limit_nonpositive (text : str) (w : Z) :
  w <= 0 -> 1 <= word_count text ->
  1 <= word_count (enforce_word_limit text w) /\
  (w = 0 -> enforce_word_limit text w = lit "...").
Proof.
  intros Hw Hc. unfold word_count, len in *.
  assert (E : enforce_word_limit text w
              = join (lit " ") (slice_to (split text) w) ++ lit "...").
  { unfold enforce_word_limit, len. by rewrite (proj2 (Z.leb_gt _ _)) by lia. }
  split.
  - rewrite E.
    assert (Hws : Forall is_word (slice_to (split text) w)).
    { unfold slice_to. destruct (0 <=? w); apply Forall_take_words, split_words. }
    destruct (slice_to (split text) w) as [|x ws] eqn:Es.
    + vm_compute. discriminate.
    + rewrite split_join_tail; [|done|done|by repeat constructor].
      rewrite length_append_last. cbn [length]. lia.
  - intros ->. by rewrite E.
Qed.

Lemma enforce_word_limit_nonpositive_witness :
  1 <= word_count (enforce_word_limit (lit "a tabby cat") (-1)) /\
  (-1 = 0 -> enforce_word_limit (lit "a tabby cat") (-1) = lit "...").
Proof.
  apply (enforce_word_limit_nonpositive (lit "a tabby cat") (-1));
    [lia | vm_compute; discriminate].
Defined.

(** ** Credential resolution beyond its contract *)

(** X5. A secrets store that cannot be read counts as an empty one: the
    exception raised by reading it is swallowed, and the result is that of
    the same world with a readable store that holds nothing. *)
Theorem unreadable_secrets_are_swallowed (w : world) (e : exn) :
  secrets w = inl e ->
  get_claude_client w
    = get_claude_client {| secrets := inr ∅;
                           environ := environ w;
                           service := service w |}.
Proof.
  intros Hs. unfold get_claude_client. cbn [secrets environ].
  by rewrite Hs, lookup_empty.
Qed.

Lemma unreadable_secrets_are_swallowed_witness :
  get_claude_client unconfigured_world
    = get_claude_client {| secrets := inr ∅;
                           environ := environ unconfigured_world;
                           service := service unconfigured_world |}.
Proof.
  apply (unreadable_secrets_are_swallowed unconfigured_world
           (RuntimeError (lit "No secrets found."))).
  reflexivity.
Defined.

(** X6. Whatever the two sources hold, [get_claude_client] either returns a
    client whose key is truthy (never [None], never an empty string) or
    raises the one [RuntimeError] with the fixed message; an exception from
    the secrets store is never the one that leaves the function. *)
Theorem get_claude_client_outcomes (w : world) :
  match get_claude_client w with
  | Return c => truthy (api_key c) = true
  | Raise e => e = RuntimeError missing_key_message
  end.
Proof.
  rewrite get_claude_client_resolve.
  unfold resolve_credential, first_success, secrets_provider, environ_provider.
  destruct (secrets w) as [e|sec].
  - destruct (environ w !! "ANTHROPIC_API_KEY"%string) as [[|c s]|]; done.
  - destruct (sec !! "ANTHROPIC_API_KEY"%string) as [v|].
    + destruct (truthy v) eqn:Hv; [done|].
      destruct (environ w !! "ANTHROPIC_API_KEY"%string) as [[|c s]|]; done.
    + destruct (environ w !! "ANTHROPIC_API_KEY"%string) as [[|c s]|]; done.
Qed.

(** ** The image normalizer applied twice *)


Example to_png_bytes_twice_palette :
  let logo := {| PIL.im_mode := PIL.M_P; PIL.im_size := (1, 1);
                 PIL.im_pixels := PIL.im_pixels transparent_dot |} in
  to_png_bytes (PIL.Encoded PIL.GIF logo)
    = Return (PIL.Encoded PIL.PNG (PIL.convert PIL.M_RGBA logo)) /\
  to_png_bytes (PIL.Encoded PIL.PNG (PIL.convert PIL.M_RGBA logo))
    = Return (PIL.Encoded PIL.PNG (PIL.convert PIL.M_RGB logo)).
Proof. split; reflexivity. Qed.

(** ** The Describe pipeline, stage by stage *)

Lemma describe_sent_cases (w : world) (f : PIL.buffer) (v : Z) :
  describe_sent w f v =
    match to_png_bytes f, get_claude_client w with
    | Return png, Return _ =>
        [describe_request (b64encode png) (user_prompt (Z.min v 300))]
    | _, _ => []
    end.
Proof.
  unfold describe_sent, describe_image_with_claude, bind, lift, ret,
    messages_create, blank.
  destruct (to_png_bytes f) as [png|e]; [|done].
  destruct (get_claude_client w) as [client|e]; [|done].
  destruct (service w client _) as [e|blocks]; [done|].
  cbn. by destruct (text_chunks blocks).
Qed.

(** X8. A call sends exactly one request when the image decodes and a
    credential resolves, whether or not the service then answers, and no
    request at all otherwise: a bad upload or a missing key never reaches
    the service. *)
Theorem describe_sends_one_request_or_none (w : world) (f : PIL.buffer) (v : Z) :
  (length (describe_sent w f v) <= 1)%nat /\
  (describe_sent w f v <> [] <->
   (exists png, to_png_bytes f = Return png) /\
   (exists client, get_claude_client w = Return client)) /\
  forall req, In req (describe_sent w f v) ->
    exists png, to_png_bytes f = Return png /\
      req = describe_request (b64encode png) (user_prompt (Z.min v 300)).
Proof.
  rewrite describe_sent_cases.
  destruct (to_png_bytes f) as [png|e1], (get_claude_client w) as [client|e2];
    cbn; (split; [lia|]); split.
  - split; [eauto|done].
  - intros req [<-|[]]. eauto.
  - split; [done|]. by intros [_ [c [=]]].
  - intros req [].
  - split; [done|]. by intros [[p [=]] _].
  - intros req [].
  - split; [done|]. by intros [[p [=]] _].
  - intros req [].
Qed.

(** X9. Every request that leaves carries one user message made of one
    image part and one text part; the image part is declared [image/png]
    and its payload is a PNG file, an RGB or RGBA image; the token budget,
    the model and the system prompt are fixed. *)
Theorem request_declares_what_it_carries
    (w : world) (f : PIL.buffer) (v : Z) (req : request) :
  In req (describe_sent w f v) ->
  exists im,
    messages req
      = [ {| role := lit "user";
             content := [ ImagePart (lit "base64") (lit "image/png")
                            (b64encode (PIL.Encoded PIL.PNG im));
                          TextPart (user_prompt (Z.min v 300)) ] |} ] /\
    (PIL.im_mode im = PIL.M_RGB \/ PIL.im_mode im = PIL.M_RGBA) /\
    max_tokens req = 600 /\
    model req = lit "claude-3-haiku-20240307" /\
    system req = system_prompt.
Proof.
  rewrite describe_sent_cases. destruct f as [raw|fmt im]; [done|].
  unfold to_png_bytes. cbn [PIL.open PIL.save].
  destruct (get_claude_client w) as [client|e]; [|done].
  intros [<-|[]]. eexists. split; [reflexivity|]. split; [|done].
  destruct (existsb _ _); cbn; tauto.
Qed.

Lemma request_declares_what_it_carries_witness :
  exists im,
    messages (describe_request
                (b64encode (PIL.Encoded PIL.PNG (PIL.convert PIL.M_RGB transparent_dot)))
                (user_prompt (Z.min 100 300)))
      = [ {| role := lit "user";
             content := [ ImagePart (lit "base64") (lit "image/png")
                            (b64encode (PIL.Encoded PIL.PNG im));
                          TextPart (user_prompt (Z.min 100 300)) ] |} ] /\
    (PIL.im_mode im = PIL.M_RGB \/ PIL.im_mode im = PIL.M_RGBA) /\
    max_tokens (describe_request
                  (b64encode (PIL.Encoded PIL.PNG (PIL.convert PIL.M_RGB transparent_dot)))
                  (user_prompt (Z.min 100 300))) = 600 /\
    model (describe_request
             (b64encode (PIL.Encoded PIL.PNG (PIL.convert PIL.M_RGB transparent_dot)))
             (user_prompt (Z.min 100 300))) = lit "claude-3-haiku-20240307" /\
    system (describe_request
              (b64encode (PIL.Encoded PIL.PNG (PIL.convert PIL.M_RGB transparent_dot)))
              (user_prompt (Z.min 100 300))) = system_prompt.
Proof.
  apply (request_declares_what_it_carries sample_world sample_upload 100).
  vm_compute. tauto.
Defined.

Lemma describe_result_cases (w : world) (f : PIL.buffer) (v : Z) :
  describe_result w f v =
    match to_png_bytes f with
    | Raise e => Raise e
    | Return png =>
        match get_claude_client w with
        | Raise e => Raise e
        | Return client =>
            match service w client
                    (describe_request (b64encode png) (user_prompt (Z.min v 300))) with
            | inl e => Raise e
            | inr blocks =>
                match text_chunks blocks with
                | Raise e => Raise e
                | Return chunks =>
                    Return (enforce_word_limit (join (nl ++ nl) chunks) (Z.min v 300))
                end
            end
        end
    end.
Proof.
  unfold describe_result, describe_image_with_claude, bind, lift, ret,
    messages_create, blank.
  destruct (to_png_bytes f) as [png|e]; [|done].
  destruct (get_claude_client w) as [client|e]; [|done].
  destruct (service w client _) as [e|blocks]; [done|].
  cbn [fst snd]. by destruct (text_chunks blocks).
Qed.



(** X11. The call fails exactly when one of its four stages fails, and the
    exception it raises is that stage's exception, unchanged; a stage is
    only reached when the ones before it succeeded: decoding, then the
    credential, then the service, then reading the answer's text. *)
Theorem describe_fails_at_first_failing_stage
    (w : world) (f : PIL.buffer) (v : Z) (e : exn) :
  describe_result w f v = Raise e <->
  to_png_bytes f = Raise e \/
  exists png, to_png_bytes f = Return png /\
    (get_claude_client w = Raise e \/
     exists client, get_claude_client w = Return client /\
       let answer := service w client
                       (describe_request (b64encode png) (user_prompt (Z.min v 300))) in
       (answer = inl e \/
        exists blocks, answer = inr blocks /\ text_chunks blocks = Raise e)).
Proof.
  rewrite describe_result_cases. cbv zeta.
  destruct (to_png_bytes f) as [png|e1].
  2: { split; [intros [= ->]; by left|].
       intros [[= ->]|(png & [=] & _)]. done. }
  destruct (get_claude_client w) as [client|e2].
  2: { split.
       - intros [= ->]. right. exists png. split; [done|]. by left.
       - intros [[=]|(p & _ & [[= ->]|(c & [=] & _)])]. done. }
  remember (describe_request (b64encode png) (user_prompt (Z.min v 300)))
    as req eqn:Hreq.
  destruct (service w client req) as [e3|blocks] eqn:Hs.
  { split.
    - intros [= ->]. right. exists png. split; [done|]. right.
      exists client. split; [done|]. left. by rewrite <- Hreq.
    - intros [[=]|(p & [= <-] & [[=]|(c & [= <-] & H)])].
      rewrite <- Hreq, Hs in H. destruct H as [[= ->]|(b & [=] & _)]. done. }
  destruct (text_chunks blocks) as [chunks|e4] eqn:Hc.
  - split; [done|].
    intros [[=]|(p & [= <-] & [[=]|(c & [= <-] & H)])].
    rewrite <- Hreq, Hs in H. destruct H as [[=]|(b & [= <-] & Hb)]. congruence.
  - split.
    + intros [= ->]. right. exists png. split; [done|]. right.
      exists client. split; [done|]. right. exists blocks. by rewrite <- Hreq.
    + intros [[=]|(p & [= <-] & [[=]|(c & [= <-] & H)])].
      rewrite <- Hreq, Hs in H. destruct H as [[=]|(b & [= <-] & Hb)]. congruence.
Qed.

(** X12. Reading an answer's text: the call returns the texts of the
    text-typed blocks, in order, and passes over every other block; it
    returns exactly when each text-typed block has a text. *)
Theorem text_chunks_are_the_text_blocks (blocks : list block) (ts : list str) :
  text_chunks blocks = Return ts <->
  b_text <$> filter (fun b => b_type b = Some (lit "text")) blocks = Some <$> ts.
Proof.
  revert ts. induction blocks as [|b blocks IH]; intros ts.
  - cbn. split; [by intros [= <-]|]. destruct ts; [done|discriminate].
  - cbn [text_chunks]. rewrite filter_cons.
    destruct (decide (b_type b = Some (lit "text"))) as [Ht|Ht].
    + rewrite bool_decide_eq_true_2 by done. cbn [fmap list_fmap].
      destruct (b_text b) as [t|].
      * destruct (text_chunks blocks) as [ts'|e].
        -- split.
           ++ intros [= <-]. cbn. f_equal. by apply IH.
           ++ destruct ts as [|t' ts]; [discriminate|].
              cbn. intros [= -> H]. apply IH in H. by injection H as ->.
        -- split; [done|]. destruct ts as [|t' ts]; [discriminate|].
           cbn. intros [= -> H]. by apply IH in H.
      * split; [done|]. destruct ts; discriminate.
    + rewrite bool_decide_eq_false_2 by done. apply IH.
Qed.

(** ** Runs of the page script *)

Lemma get_claude_client_raises (w : world) (e : exn) :
  get_claude_client w = Raise e -> e = RuntimeError missing_key_message.
Proof.
  rewrite get_claude_client_resolve.
  destruct (resolve_credential w); [done|]. by intros [= <-].
Qed.

Lemma describe_sent_length (w : world) (f : PIL.buffer) (v : Z) :
  (length (describe_sent w f v) <= 1)%nat.
Proof.
  rewrite describe_sent_cases.
  destruct (to_png_bytes f), (get_claude_client w); cbn; lia.
Qed.


(** X14. A run sends at most one request, and sends one only when Describe
    was clicked with an image staged: uploading, moving the slider, Clear,
    Copy and Clear text never reach the service. *)
Theorem requests_only_on_describe (w : world) (ui : widgets) (ss : gmap string str) :
  (length (sent (rerun w ui ss).2) <= 1)%nat /\
  (sent (rerun w ui ss).2 <> [] ->
   describe_clicked ui = true /\ is_Some (uploaded_file ui)).
Proof.
  rewrite rerun_summary. cbn [snd sent]. unfold page_requests.
  destruct (describe_clicked ui), (uploaded_file ui) as [f|]; cbn [length];
    (split; [first [apply describe_sent_length | lia]|]); try done.
Qed.






(** ** Runs end to end *)









(** X20. Describe without a credential.  When the image decodes but neither
    source yields a key, the run renders the picture, the spinner and one
    error whose text is the prefix followed by the missing-key message, then
    the result area with the description it found; nothing is sent and the
    description stays. *)
Theorem describe_without_credential
    (w : world) (f png : PIL.buffer) (v : Z) (ss : gmap string str) (e : exn) :
  to_png_bytes f = Return png ->
  get_claude_client w = Raise e ->
  let r := rerun w (click (Some Describe) (Some f) v) ss in
  rendered r.2
    = [ st_image f;
        st_spinner (lit "Asking Claude to describe your image...");
        st_error (lit "Something went wrong talking to Claude: "
                  ++ missing_key_message) ]
      ++ result_area (DescriptionResult ss) /\
  sent r.2 = [] /\
  DescriptionResult (session_state r.2) = DescriptionResult ss.
Proof.
  intros Hpng Hkey. cbv zeta.
  pose proof (get_claude_client_raises w e Hkey) as ->.
  assert (Hr : describe_result w f v = Raise (RuntimeError missing_key_message)).
  { rewrite describe_result_cases. by rewrite Hpng, Hkey. }
  assert (Hs : describe_sent w f v = []).
  { rewrite describe_sent_cases. by rewrite Hpng, Hkey. }
  rewrite rerun_summary. cbn [snd rendered sent session_state].
  rewrite DescriptionResult_insert.
  unfold page_elements, page_requests, shown_description, next_description, click.
  cbn [uploaded_file max_words describe_clicked clear_clicked copy_clicked
       clear2_clicked andb app].
  rewrite Hr, Hs. by rewrite app_nil_r.
Qed.

Lemma describe_without_credential_witness :
  let r := rerun unconfigured_world (click (Some Describe) (Some sample_upload) 50)
             {[ "description"%string := lit "an earlier result" ]} in
  rendered r.2
    = [ st_image sample_upload;
        st_spinner (lit "Asking Claude to describe your image...");
        st_error (lit "Something went wrong talking to Claude: "
                  ++ missing_key_message) ]
      ++ result_area (DescriptionResult
                        {[ "description"%string := lit "an earlier result" ]}) /\
  sent r.2 = [] /\
  DescriptionResult (session_state r.2)
    = DescriptionResult {[ "description"%string := lit "an earlier result" ]}.
Proof.
  apply (describe_without_credential unconfigured_world sample_upload
           (PIL.Encoded PIL.PNG (PIL.convert PIL.M_RGB transparent_dot)) 50
           {[ "description"%string := lit "an earlier result" ]}
           (RuntimeError missing_key_message));
    reflexivity.
Defined.


(** X22. A blank answer erases.  When the pipeline returns a text that is
    empty or all whitespace, Describe counts as a success: the description
    that was in store is replaced by the empty text, the result area shows
    the placeholder, and no error or warning is rendered. *)
Theorem blank_answer_erases_description
    (w : world) (f : PIL.buffer) (v : Z) (ss : gmap string str) (d : str) :
  describe_result w f v = Return d ->
  strip d = [] ->
  let r := rerun w (click (Some Describe) (Some f) v) ss in
  DescriptionResult (session_state r.2) = [] /\
  rendered r.2
    = [ st_image f;
        st_spinner (lit "Asking Claude to describe your image...");
        st_markdown (lit "### Description");
        st_write placeholder ].
Proof.
  intros Hd Hblank. cbv zeta. rewrite rerun_summary.
  cbn [snd rendered session_state]. rewrite DescriptionResult_insert.
  unfold page_elements, shown_description, next_description, click, result_area.
  cbn [uploaded_file max_words describe_clicked clear_clicked copy_clicked
       clear2_clicked andb app].
  rewrite Hd, Hblank. by cbn.
Qed.

Lemma blank_answer_erases_description_witness :
  let w := {| secrets := secrets markup_world; environ := ∅;
              service := fun _ _ => inr [ text_block (lit "   ") ] |} in
  let r := rerun w (click (Some Describe) (Some sample_upload) 100)
             {[ "description"%string := lit "an earlier result" ]} in
  DescriptionResult (session_state r.2) = [] /\
  rendered r.2
    = [ st_image sample_upload;
        st_spinner (lit "Asking Claude to describe your image...");
        st_markdown (lit "### Description");
        st_write placeholder ].
Proof.
  apply (blank_answer_erases_description
           {| secrets := secrets markup_world; environ := ∅;
              service := fun _ _ => inr [ text_block (lit "   ") ] |}
           sample_upload 100
           {[ "description"%string := lit "an earlier result" ]} (lit "   "));
    vm_compute; reflexivity.
Defined.

(** ** [json.dumps] and the string literal *)

(** X23. The JSON text of a description, read as the JavaScript string
    literal the copy component makes of it, has exactly the description as
    its value: quotes, backslashes, control characters, characters outside
    ASCII and characters outside the basic plane (as surrogate pairs) all
    come back as they went in. *)
Theorem json_dumps_round_trip (s k : str) :
  Forall is_code_point s ->
  exists body,
    Json.dumps s ++ k = 34%N :: body /\
    Browser.string_literal body = Some (dom_string s, k).
Proof.
  intros Hs. unfold Json.dumps. eexists. split.
  - cbn [app]. rewrite <- app_assoc. reflexivity.
  - cbn [app]. by apply string_literal_dumps.
Qed.

Lemma json_dumps_round_trip_witness :
  exists body,
    Json.dumps [34; 92; 10; 233; 128008]%N ++ lit ");" = 34%N :: body /\
    Browser.string_literal body
      = Some (dom_string [34; 92; 10; 233; 128008]%N, lit ");").
Proof.
  apply (json_dumps_round_trip [34; 92; 10; 233; 128008]%N (lit ");")).
  repeat (constructor; [reflexivity|]). constructor.
Defined.
